(** * twilio-ivr: the session store adapter and the route compiler

  A shallow embedding of [build/lib/session/store.js] (the Sequelize-backed
  session store) and of the state loop of [lib/index.ts] (the "compile
  phase" that turns declared states into POST routes, and the two request
  handlers it installs), followed by the properties proved about them. *)

From stdpp Require Import gmap strings list fin_maps.

Local Open Scope string_scope.
Set Warnings "-register-all".

(** ** JavaScript values used by the program *)

(** A plain object whose properties hold strings: a urlencoded request body,
  the flow-specific fields of a session. *)
Abbreviation JSObject := (gmap string string).

(** What a promise rejects with, and what [next] is called with.  Express's
  [next] treats a falsy argument as "no error". *)
Inductive Reason :=
| RUndefined
| RError (msg : string).

(** A promise, by how it ends: fulfilled, rejected, or never settled. *)
Inductive Promise (A : Type) :=
| Resolved (a : A)
| Rejected (err : Reason)
| Pending.
Arguments Resolved {A} a.
Arguments Rejected {A} err.
Arguments Pending {A}.

(** ** build/lib/session/store.js *)

(** The value handed to [set]: a call record, carrying its own [callSid]
  next to the session fields. *)
Record CallRecord := {
callSid : string;
sessionData : JSObject
}.

(** What [call.get({ plain: true })] gives back: the columns of the row plus
  the [userCall] association pulled in by the [include] of the query. *)
Record PlainCall := {
pc_callSid : string;
pc_sessionData : JSObject;
pc_userCall : option JSObject
}.

(** The record as it was set, once the store-added [userCall] is dropped. *)
Definition withoutMetadata (p : PlainCall) : CallRecord :=
{| callSid := pc_callSid p; sessionData := pc_sessionData p |}.

(** Modelled from the spec: the Sequelize call model given to the
  constructor (its definition is not among the sources).  The spec has
  session records keyed by the call identifier, so the table is a finite
  map from [callSid] to the row's remaining columns; [findOne], [upsert]
  and [destroy] are Sequelize's operations on it: [findOne] resolves with
  the row or null, [destroy] with the number of rows deleted, and [upsert]
  with what the model at hand answers. *)
Module CallModel.

Record t := {
  (** resolves the [userCall] association of a row *)
  userCall : gmap string JSObject → string → option JSObject;
  (** what [upsert] resolves to for a value on a table: Sequelize's answer
      to "was the row created", which differs between its dialects and
      versions *)
  upsertCreated : gmap string JSObject → CallRecord → bool
}.

Definition findOne (m : t) (where_callSid : string)
    (rows : gmap string JSObject) : option PlainCall :=
  match rows !! where_callSid with
  | Some columns =>
      Some {| pc_callSid := where_callSid;
              pc_sessionData := columns;
              pc_userCall := userCall m rows where_callSid |}
  | None => None
  end.

Definition upsert (m : t) (value : CallRecord)
    (rows : gmap string JSObject) : bool * gmap string JSObject :=
  (upsertCreated m rows value,
   <[callSid value := sessionData value]> rows).

Definition destroy (m : t) (where_callSid : string)
    (rows : gmap string JSObject) : nat * gmap string JSObject :=
  (match rows !! where_callSid with Some _ => 1 | None => 0 end,
   delete where_callSid rows).

End CallModel.

(** [class SequelizeStore].  Every method returns a promise that resolves
  once the database answered; the database is threaded explicitly, so a
  method maps the table to the resolved value and the table left behind. *)
Module SequelizeStore.

Record t := { callModel : CallModel.t }.

(** [constructor(callModel)] *)
Definition constructor (callModel : CallModel.t) : t :=
  {| callModel := callModel |}.

(** [get(callSid)]: [None] is JavaScript's [undefined]. *)
Definition get (this : t) (callSid : string)
    (rows : gmap string JSObject) : option PlainCall * gmap string JSObject :=
  (match CallModel.findOne (callModel this) callSid rows with
   | Some call => Some call
   | None => None
   end, rows).

(** [set(callSid, value)]: the first argument is never read. *)
Definition set (this : t) (callSid : string) (value : CallRecord)
    (rows : gmap string JSObject) : string * gmap string JSObject :=
  let '(created, rows') := CallModel.upsert (callModel this) value rows in
  (if created then "created" else "updated", rows').

(** [destroy(callSid)] *)
Definition destroy (this : t) (callSid : string)
    (rows : gmap string JSObject) : bool * gmap string JSObject :=
  let '(deletedCount, rows') := CallModel.destroy (callModel this) callSid rows in
  (bool_decide (0 < deletedCount), rows').

End SequelizeStore.

(** ** lib/index.ts: states, requests and the Express application *)

Abbreviation Twiml := string.

(** A candidate entry of the [states] array.  The array is typed
    [UsableState[]], but the loop still guards against entries that are not
    objects, so those are kept.  A property is [None] when the object does
    not have it. *)
Inductive Candidate :=
  | CNull
  | CUndefined
  | CObject (name : option string)
            (uri : option string)
            (processTransitionUri : option string)
            (transitionOut :
               option (JSObject → JSObject → Promise (JSObject * Candidate))).

Inductive Method := GET | POST.

Record Request := {
  req_method : Method;
  req_path : string;
  body : JSObject;
  callSession : option PlainCall
}.

(** What a handler does that the outside can observe, in order.
    [NotFound] is Express's answer when no route is left to try. *)
Inductive Effect :=
  | TransitionOutCalled (state : Candidate) (session input : JSObject)
  | RenderStateCalled (state : Candidate) (req : Request) (session : JSObject)
                      (furl : string → string) (input : option JSObject)
  | ResSend (twiml : Twiml)
  | Next (err : Reason)
  | UnhandledRejection (err : Reason)
  | NotFound.

(** The function given to [app.post]; the closures of the loop capture
    [thisState] only. *)
Inductive Handler :=
  | DirectHandler (thisState : Candidate)
  | ProcessTransitionHandler (thisState : Candidate)
  | OtherHandler (run : Request → list Effect).

Record Layer := {
  l_method : Method;
  l_path : string;
  l_handler : Handler
}.

(** The Express application: the router's stack of routes, oldest first,
    and [app.locals.furl]. *)
Record App := {
  stack : list Layer;
  locals_furl : string → string
}.

(** [import * as StateTypes from "./state"]: the classifier is used through
    these three predicates only. *)
Class StateTypes := {
  isUsableState : Candidate → bool;
  isRoutableState : Candidate → bool;
  isNormalState : Candidate → bool
}.

(** [import { getSessionData, renderState } from "./util/routeCreationHelpers"] *)
Class RouteCreationHelpers := {
  getSessionData : Request → JSObject;
  renderState : Candidate → Request → JSObject → (string → string) →
                option JSObject → Promise Twiml
}.

(** How Express decides that a route's path pattern covers a request path. *)
Class PathMatcher := {
  pathMatches : string → string → bool
}.

(** *** Statements that may throw while the application is set up *)

Inductive Completion (A : Type) :=
  | Normal (a : A)
  | Throw (error : string).
Arguments Normal {A} a.
Arguments Throw {A} error.

(** A statement of the setup code: it may change the application and it may
    throw; what was registered before the throw stays registered. *)
Definition Setup (A : Type) : Type := App → Completion A * App.

#[global] Instance Setup_ret : MRet Setup := λ A a app, (Normal a, app).

#[global] Instance Setup_bind : MBind Setup := λ A B k m app,
  match m app with
  | (Normal a, app') => k a app'
  | (Throw e, app') => (Throw e, app')
  end.

Definition throw {A} (error : string) : Setup A := λ app, (Throw error, app).

(** [String(thisState)] *)
Definition String_ (thisState : Candidate) : string :=
  match thisState with
  | CNull => "null"
  | CUndefined => "undefined"
  | CObject _ _ _ _ => "[object Object]"
  end.

(** [thisState && thisState.name], when that value is truthy. *)
Definition truthyName (thisState : Candidate) : option string :=
  match thisState with
  | CObject (Some name) _ _ _ => if String.eqb name "" then None else Some name
  | _ => None
  end.

(** [(thisState && thisState.name) || String(thisState)] *)
Definition stateAsString (thisState : Candidate) : string :=
  match truthyName thisState with
  | Some name => name
  | None => String_ thisState
  end.

(** Reading a property of [null] or [undefined] throws a TypeError. *)
Definition readUri (thisState : Candidate) : Setup (option string) :=
  match thisState with
  | CObject _ uri _ _ => mret uri
  | _ => throw "TypeError: Cannot read property 'uri'"
  end.

Definition readProcessTransitionUri (thisState : Candidate) : Setup (option string) :=
  match thisState with
  | CObject _ _ processTransitionUri _ => mret processTransitionUri
  | _ => throw "TypeError: Cannot read property 'processTransitionUri'"
  end.

(** [app.post(path, handler)]: Express pushes a new route on the stack; a
    path that is [undefined] makes its path compiler throw.  A string is
    taken to be a pattern the path compiler accepts. *)
Definition app_post (path : option string) (handler : Handler) : Setup unit :=
  match path with
  | Some p => λ app,
      (Normal (),
       {| stack := stack app ++
                   [{| l_method := POST; l_path := p; l_handler := handler |}];
          locals_furl := locals_furl app |})
  | None => throw "TypeError: Cannot read property 'length' of undefined"
  end.

Definition when (b : bool) (m : Setup unit) : Setup unit :=
  if b then m else mret ().

Fixpoint forEach (callback : Candidate → Setup unit) (states : list Candidate)
    : Setup unit :=
  match states with
  | [] => mret ()
  | thisState :: rest => callback thisState ;; forEach callback rest
  end.

(** The body of [states.forEach(thisState => ...)]. *)
Definition compileState `{StateTypes} (thisState : Candidate) : Setup unit :=
  when (negb (isUsableState thisState))
    (throw ("Invalid state provided: " ++ stateAsString thisState)) ;;
  when (isRoutableState thisState)
    (path ← readUri thisState;
     app_post path (DirectHandler thisState)) ;;
  when (isNormalState thisState)
    (path ← readProcessTransitionUri thisState;
     app_post path (ProcessTransitionHandler thisState)).

(** The module's default export from the state loop on: [app] is the
    application as the lines above the loop configured it, and it is returned
    when the loop completes. *)
Definition compileRoutes `{StateTypes} (states : list Candidate) (app : App)
    : Completion App * App :=
  match forEach compileState states app with
  | (Normal _, app') => (Normal app', app')
  | (Throw e, app') => (Throw e, app')
  end.

(** *** The request handlers *)

(** [promise.then(onFulfilled, onRejected)]: neither callback runs while
    the promise is not settled. *)
Definition then2 {A} (promise : Promise A)
    (onFulfilled : A → list Effect) (onRejected : Reason → list Effect)
    : list Effect :=
  match promise with
  | Resolved a => onFulfilled a
  | Rejected err => onRejected err
  | Pending => []
  end.

(** [promise.then(onFulfilled)]: nothing is attached for a rejection, which
    is therefore reported by the runtime as unhandled and goes nowhere. *)
Definition then1 {A} (promise : Promise A) (onFulfilled : A → list Effect)
    : list Effect :=
  match promise with
  | Resolved a => onFulfilled a
  | Rejected err => [UnhandledRejection err]
  | Pending => []
  end.

(** The handler registered at [thisState.uri]. *)
Definition directHandler `{RouteCreationHelpers} (app : App)
    (thisState : Candidate) (req : Request) : list Effect :=
  RenderStateCalled thisState req (getSessionData req) (locals_furl app)
                    (Some (body req)) ::
  then2 (renderState thisState req (getSessionData req) (locals_furl app)
                     (Some (body req)))
        (λ twiml, [ResSend twiml])
        (λ err, [Next err]).

(** The handler registered at [thisState.processTransitionUri].  Calling a
    [transitionOut] that is not there, or reading it off [null], throws
    inside the handler; Express catches what a handler throws and hands it
    to [next]. *)
Definition processTransitionHandler `{RouteCreationHelpers} (app : App)
    (thisState : Candidate) (req : Request) : list Effect :=
  match thisState with
  | CObject _ _ _ (Some transitionOut) =>
      let resultStateAndSessionPromise :=
        transitionOut (getSessionData req) (body req) in
      TransitionOutCalled thisState (getSessionData req) (body req) ::
      then1 resultStateAndSessionPromise
        (λ '(updatedSession, resultState),
           RenderStateCalled resultState req updatedSession (locals_furl app)
                             None ::
           then2 (renderState resultState req updatedSession (locals_furl app)
                              None)
                 (λ twiml, [ResSend twiml])
                 (λ err, [Next err]))
  | CObject _ _ _ None =>
      [Next (RError "TypeError: thisState.transitionOut is not a function")]
  | _ => [Next (RError "TypeError: Cannot read property 'transitionOut'")]
  end.

Definition runHandler `{RouteCreationHelpers} (app : App) (handler : Handler)
    (req : Request) : list Effect :=
  match handler with
  | DirectHandler thisState => directHandler app thisState req
  | ProcessTransitionHandler thisState => processTransitionHandler app thisState req
  | OtherHandler run => run req
  end.

(** *** Express's router *)

Definition Method_eqb (a b : Method) : bool :=
  match a, b with
  | GET, GET | POST, POST => true
  | _, _ => false
  end.

Definition layerMatches `{PathMatcher} (layer : Layer) (req : Request) : bool :=
  Method_eqb (l_method layer) (req_method req) &&
  pathMatches (l_path layer) (req_path req).

(** [next()] and [next(undefined)] pass the request on to the next matching
    route; [next(err)] leaves the routes for the error handlers. *)
Definition passesControl (effects : list Effect) : bool :=
  match last effects with
  | Some (Next RUndefined) => true
  | _ => false
  end.

(** The router walks its stack from the oldest route on and calls the first
    one that matches; a later match is reached only when every matching
    route before it passed control on. *)
Fixpoint Router_handle `{RouteCreationHelpers} `{PathMatcher} (app : App)
    (layers : list Layer) (req : Request) : list Effect :=
  match layers with
  | [] => [NotFound]
  | layer :: rest =>
      if layerMatches layer req then
        let effects := runHandler app (l_handler layer) req in
        if passesControl effects
        then effects ++ Router_handle app rest req
        else effects
      else Router_handle app rest req
  end.

(** Modelled from the spec: the request orchestrator's use of the session
    store, which lives in the session middleware of [./session] and is not
    among the sources.  The spec has it load the session first and, on a
    transition route, persist the updated session after the rendering
    started ("load session, execute transition, render, persist
    updatedSession, send response").

    The load, as the comment above [app.use(sessionMiddleware(...))] also
    has it: the call in progress (if any) is read from the store into
    [req.callSession]; the call is the one named by the [CallSid] parameter
    of the carrier's request. *)
Definition sessionMiddleware (callSessionStore : SequelizeStore.t)
    (req : Request) (rows : gmap string JSObject)
    : Request * gmap string JSObject :=
  match body req !! "CallSid" with
  | Some sid =>
      let '(call, rows') := SequelizeStore.get callSessionStore sid rows in
      ({| req_method := req_method req; req_path := req_path req;
          body := body req; callSession := call |}, rows')
  | None => (req, rows)
  end.

(** The session a transition produced: the one the handler went on to render
    with, right after [transitionOut].  A request runs at most one
    transition to its rendering before it is answered; the first one
    counts. *)
Fixpoint updatedSessionOf (effects : list Effect) : option JSObject :=
  match effects with
  | [] => None
  | TransitionOutCalled _ _ _ :: rest =>
      match rest with
      | RenderStateCalled _ _ updatedSession _ _ :: _ => Some updatedSession
      | _ => updatedSessionOf rest
      end
  | _ :: rest => updatedSessionOf rest
  end.

(** Modelled from the spec: the persist step of the orchestrator.  The
    updated session of a transition that completed is stored with [set]
    under the call identifier; a request without a transition, or whose
    transition failed, stores nothing ("only persist on success"). *)
Definition persistSession (callSessionStore : SequelizeStore.t)
    (req : Request) (effects : list Effect) (rows : gmap string JSObject)
    : gmap string JSObject :=
  match body req !! "CallSid", updatedSessionOf effects with
  | Some sid, Some updatedSession =>
      (SequelizeStore.set callSessionStore sid
         {| callSid := sid; sessionData := updatedSession |} rows).2
  | _, _ => rows
  end.

(** One request against the compiled application: the load of the session,
    then the routes, then the persist step.  The result is what the
    handlers did and the table of calls as the request left it. *)
Definition serve `{RouteCreationHelpers} `{PathMatcher} (app : App)
    (callSessionStore : SequelizeStore.t) (req : Request)
    (rows : gmap string JSObject) : list Effect * gmap string JSObject :=
  let '(req', rows') := sessionMiddleware callSessionStore req rows in
  let effects := Router_handle app (stack app) req' in
  (effects, persistSession callSessionStore req' effects rows').

(** ** Vocabulary of the specification *)

Definition nameOf (thisState : Candidate) : option string :=
  match thisState with
  | CObject name _ _ _ => name
  | _ => None
  end.

Definition uriOf (thisState : Candidate) : option string :=
  match thisState with
  | CObject _ uri _ _ => uri
  | _ => None
  end.

Definition processTransitionUriOf (thisState : Candidate) : option string :=
  match thisState with
  | CObject _ _ processTransitionUri _ => processTransitionUri
  | _ => None
  end.

Definition hasTransitionOut (thisState : Candidate) : bool :=
  match thisState with
  | CObject _ _ _ (Some _) => true
  | _ => false
  end.

Definition postRoute (path : string) (handler : Handler) : Layer :=
  {| l_method := POST; l_path := path; l_handler := handler |}.

(** The spec's words for the route compiler: a direct-invocation binding at
    the [uri] of a Routable state, a transition-continuation binding at the
    [processTransitionUri] of a Normal state, in this order. *)
Definition directBinding (thisState : Candidate) : list Layer :=
  match uriOf thisState with
  | Some path => [postRoute path (DirectHandler thisState)]
  | None => []
  end.

Definition transitionBinding (thisState : Candidate) : list Layer :=
  match processTransitionUriOf thisState with
  | Some path => [postRoute path (ProcessTransitionHandler thisState)]
  | None => []
  end.

Definition declaredBindings `{StateTypes} (thisState : Candidate) : list Layer :=
  (if isRoutableState thisState then directBinding thisState else []) ++
  (if isNormalState thisState then transitionBinding thisState else []).

(** The inputs of the [renderState] calls in a handler's effects. *)
Fixpoint renderInputs (effects : list Effect) : list (option JSObject) :=
  match effects with
  | [] => []
  | RenderStateCalled _ _ _ _ input :: rest => input :: renderInputs rest
  | _ :: rest => renderInputs rest
  end.

(** The route Express calls first for a request. *)
Definition firstMatch `{PathMatcher} (layers : list Layer) (req : Request)
    : option Layer :=
  List.find (λ layer, layerMatches layer req) layers.

(** The route registered last among those that match a request. *)
Definition lastMatch `{PathMatcher} (layers : list Layer) (req : Request)
    : option Layer :=
  last (List.filter (λ layer, layerMatches layer req) layers).

(** [set(k, v)] then [get(k)] gives [v] back, up to the store-added
    metadata. *)
Definition setThenGetReturns (this : SequelizeStore.t) (k : string)
    (v : CallRecord) (rows : gmap string JSObject) : Prop :=
  ∃ call,
    (SequelizeStore.get this k (SequelizeStore.set this k v rows).2).1 = Some call
    ∧ withoutMetadata call = v.

(** *** Statements of the specification *)

(** C1 on a state that is both Routable and Normal: its direct binding and
    its transition binding sit at different paths. *)
Definition bothAtDifferentPaths `{StateTypes} (states : list Candidate)
    (app : App) : Prop :=
  ∀ thisState direct transition,
    thisState ∈ states →
    isRoutableState thisState = true → isNormalState thisState = true →
    direct ∈ stack (compileRoutes states app).2 →
    transition ∈ stack (compileRoutes states app).2 →
    l_handler direct = DirectHandler thisState →
    l_handler transition = ProcessTransitionHandler thisState →
    l_path direct ≠ l_path transition.

(** C1 on every sequence: each Routable state of the sequence has its direct
    binding. *)
Definition everyRoutableIsBound `{StateTypes} (states : list Candidate)
    (app : App) : Prop :=
  ∀ thisState,
    thisState ∈ states → isRoutableState thisState = true →
    ∃ layer, layer ∈ stack (compileRoutes states app).2
             ∧ l_handler layer = DirectHandler thisState.

(** C3: a state that lacks both a [uri] and what a transition route needs
    (a [processTransitionUri] with a [transitionOut]) makes compilation
    throw. *)
Definition lacksRoutes (thisState : Candidate) : Prop :=
  uriOf thisState = None
  ∧ (processTransitionUriOf thisState = None
     ∨ hasTransitionOut thisState = false).

(** C9: a request is handled by the route registered last among those that
    match it. *)
Definition lastRegistrationWins `{RouteCreationHelpers} `{PathMatcher}
    (app : App) (req : Request) : Prop :=
  ∀ layer,
    lastMatch (stack app) req = Some layer →
    Router_handle app (stack app) req = runHandler app (l_handler layer) req.

(** Modelled from the spec: the classifier of [./state], which is not among
    the sources.  Every state has a name; Routable "additionally exposes a
    uri", Normal "additionally exposes a processTransitionUri and a
    transitionOut operation"; "a state may be Routable only, Normal only, or
    both", and a declared state that "satisfies none of the classifications"
    is not Usable.  (The rendering capability the spec also asks of a
    Routable state is not a property the sources read.) *)
Definition specHasName (it : Candidate) : bool :=
  match nameOf it with Some _ => true | None => false end.

Definition specIsRoutableState (it : Candidate) : bool :=
  specHasName it && bool_decide (uriOf it ≠ None).

Definition specIsNormalState (it : Candidate) : bool :=
  specHasName it && bool_decide (processTransitionUriOf it ≠ None)
  && hasTransitionOut it.

Definition specIsUsableState (it : Candidate) : bool :=
  specIsRoutableState it || specIsNormalState it.

Definition SpecStateTypes : StateTypes :=
  {| isUsableState := specIsUsableState;
     isRoutableState := specIsRoutableState;
     isNormalState := specIsNormalState |}.

(** ** A small flow to run the definitions on

    The two-state flow of the spec: A is Normal (and Routable), B is
    Routable; A's transition sets [step] to 1 and moves on to B. *)

Definition stateB : Candidate :=
  CObject (Some "B") (Some "/b") None None.

Definition transitionOutA (session input : JSObject)
    : Promise (JSObject * Candidate) :=
  Resolved (<["step" := "1"]> session, stateB).

Definition stateA : Candidate :=
  CObject (Some "A") (Some "/a") (Some "/a/next") (Some transitionOutA).

(** A Normal state whose transition fails. *)
Definition stateFailing : Candidate :=
  CObject (Some "F") None (Some "/f/next")
    (Some (λ session input, Rejected (RError "no such choice"))).

(** A state that declares one path for both of its routes. *)
Definition stateSamePath : Candidate :=
  CObject (Some "S") (Some "/s") (Some "/s")
    (Some (λ session input, Resolved (session, stateB))).

(** A named object with no [uri], no [processTransitionUri] and no
    [transitionOut]. *)
Definition stateNameOnly : Candidate :=
  CObject (Some "lonely") None None None.

(** An object that has routes but no name. *)
Definition stateUnnamed : Candidate :=
  CObject None (Some "/u") None None.

(** Two Routable states that declare the same [uri]. *)
Definition stateFirst : Candidate :=
  CObject (Some "first") (Some "/x") None None.

Definition stateSecond : Candidate :=
  CObject (Some "second") (Some "/x") None None.

(** Helpers to run the flow with: the session is what the middleware put in
    [req.callSession], and a state renders to its name and the session's
    [step]. *)
Definition demoHelpers : RouteCreationHelpers :=
  {| getSessionData := λ req,
       match callSession req with
       | Some call => pc_sessionData call
       | None => ∅
       end;
     renderState := λ state req session furl input,
       Resolved (stateAsString state ++ ":" ++ default "" (session !! "step")) |}.

Definition exactPaths : PathMatcher := {| pathMatches := String.eqb |}.

Definition emptyApp : App := {| stack := []; locals_furl := λ asset, asset |}.

Definition demoStore : SequelizeStore.t :=
  SequelizeStore.constructor
    {| CallModel.userCall := λ rows sid, None;
       CallModel.upsertCreated := λ rows value,
         bool_decide (rows !! callSid value = None) |}.

Definition demoRows : gmap string JSObject :=
  {[ "CA1" := {[ "step" := "0" ]} ]}.

Definition post (path : string) (fields : JSObject) : Request :=
  {| req_method := POST; req_path := path; body := fields; callSession := None |}.

Definition demoApp : App :=
  (compileRoutes (H := SpecStateTypes) [stateA; stateB; stateFailing] emptyApp).2.

(** A POST to the transition route of the failing state. *)
Definition failingRequest : Request :=
  post "/f/next" (<["CallSid" := "CA1"]> {[ "choice" := "9" ]}).

(** The request of the spec's scenario: a POST to "/a/next" for call "CA1"
    with [choice] 1. *)
Definition nextRequest : Request :=
  post "/a/next" (<["CallSid" := "CA1"]> {[ "choice" := "1" ]}).

(** ** Vocabulary for the further properties *)

(** The documents a handler sent with [res.send]. *)
Fixpoint sentDocuments (effects : list Effect) : list Twiml :=
  match effects with
  | [] => []
  | ResSend twiml :: rest => twiml :: sentDocuments rest
  | _ :: rest => sentDocuments rest
  end.

(** What [next] was called with. *)
Fixpoint nextCalls (effects : list Effect) : list Reason :=
  match effects with
  | [] => []
  | Next err :: rest => err :: nextCalls rest
  | _ :: rest => nextCalls rest
  end.

(** How often [transitionOut] was called. *)
Fixpoint transitionOutCalls (effects : list Effect) : nat :=
  match effects with
  | [] => 0
  | TransitionOutCalled _ _ _ :: rest => S (transitionOutCalls rest)
  | _ :: rest => transitionOutCalls rest
  end.

(** The error of a completion, if it is a throw. *)
Definition thrown {A} (completion : Completion A) : option string :=
  match completion with
  | Normal _ => None
  | Throw error => Some error
  end.

(** What the loop body needs of a state to complete: the state is Usable,
    and the path of each route it asks for is there. *)
Definition compilable `{StateTypes} (thisState : Candidate) : Prop :=
  isUsableState thisState = true
  ∧ (isRoutableState thisState = true → is_Some (uriOf thisState))
  ∧ (isNormalState thisState = true →
     is_Some (processTransitionUriOf thisState)).

(** Helpers whose rendering always fails. *)
Definition failingRenderHelpers : RouteCreationHelpers :=
  {| getSessionData := getSessionData (RouteCreationHelpers := demoHelpers);
     renderState := λ state req session furl input,
       Rejected (RError "cannot render") |}.

(** An application that already has a GET route, as the hold music route
    is there before the state loop runs. *)
Definition holdMusicApp : App :=
  {| stack := [{| l_method := GET; l_path := "/hold-music";
                  l_handler := OtherHandler (λ req, [ResSend "hold music"]) |}];
     locals_furl := λ asset, asset |}.

Definition getRequest (path : string) : Request :=
  {| req_method := GET; req_path := path; body := ∅; callSession := None |}.

(** * Properties *)

Local Open Scope list_scope.

(** ** The session store *)

Section store.
Context (this : SequelizeStore.t).
Implicit Types (k : string) (v : CallRecord) (rows : gmap string JSObject).

Lemma get_lookup k rows :
  (SequelizeStore.get this k rows).1
  = (λ columns, {| pc_callSid := k; pc_sessionData := columns;
                   pc_userCall := CallModel.userCall
                                    (SequelizeStore.callModel this) rows k |})
    <$> rows !! k.
Proof.
  unfold SequelizeStore.get, CallModel.findOne. simpl.
  by destruct (rows !! k).
Qed.

Lemma get_keeps_rows k rows : (SequelizeStore.get this k rows).2 = rows.
Proof. reflexivity. Qed.

Lemma set_rows k v rows :
  (SequelizeStore.set this k v rows).2 = <[callSid v := sessionData v]> rows.
Proof. reflexivity. Qed.

Lemma set_reports k v rows :
  (SequelizeStore.set this k v rows).1
  = if CallModel.upsertCreated (SequelizeStore.callModel this) rows v
    then "created" else "updated".
Proof. reflexivity. Qed.

Lemma get_returns_asked_callSid k rows call :
  (SequelizeStore.get this k rows).1 = Some call → pc_callSid call = k.
Proof.
  rewrite get_lookup. destruct (rows !! k); simpl; [|done].
  by intros [= <-].
Qed.

Lemma set_then_get_same_callSid v rows :
  setThenGetReturns this (callSid v) v rows.
Proof.
  unfold setThenGetReturns.
  rewrite get_lookup, set_rows, lookup_insert_eq. simpl.
  eexists; split; [reflexivity|]. by destruct v.
Qed.

Lemma set_then_get_forces_callSid k v rows :
  setThenGetReturns this k v rows → callSid v = k.
Proof.
  intros [call [Hget Heq]].
  apply get_returns_asked_callSid in Hget. by rewrite <- Heq, <- Hget.
Qed.

End store.

(** C7 fails as stated: with an empty table, setting under the key "CA1" a
    record whose own [callSid] is "CA2" leaves nothing to get under "CA1". *)
Lemma set_get_other_callSid_counterexample :
  ¬ setThenGetReturns demoStore "CA1"
      {| callSid := "CA2"; sessionData := {[ "step" := "1" ]} |} ∅.
Proof.
  intros [call [Hget _]]. rewrite get_lookup, set_rows in Hget.
  simpl in Hget. rewrite lookup_insert_ne in Hget by done.
  by rewrite lookup_empty in Hget.
Qed.

(** C7, amended: for every store, table, key [k] and record [v] whose own
    [callSid] is [k], [set(k, v)] followed by [get(k)] returns a record that
    equals [v] once the store-added [userCall] is dropped. *)
Theorem set_get_roundtrip (this : SequelizeStore.t) (k : string)
    (v : CallRecord) (rows : gmap string JSObject) :
  callSid v = k → setThenGetReturns this k v rows.
Proof. intros <-. apply set_then_get_same_callSid. Qed.

Lemma set_get_roundtrip_witness :
  setThenGetReturns demoStore "CA1"
    {| callSid := "CA1"; sessionData := {[ "step" := "1" ]} |} demoRows.
Proof. apply set_get_roundtrip. reflexivity. Defined.

(** C8: [destroy(k)] resolves to false and leaves the table as it was when
    [get(k)] finds nothing; when [get(k)] finds a record it resolves to true
    and a [get(k)] on the table it leaves finds nothing. *)
Theorem destroy_reports_and_removes (this : SequelizeStore.t) (k : string)
    (rows : gmap string JSObject) :
  ((SequelizeStore.get this k rows).1 = None →
     SequelizeStore.destroy this k rows = (false, rows)) ∧
  ((SequelizeStore.get this k rows).1 ≠ None →
     (SequelizeStore.destroy this k rows).1 = true ∧
     (SequelizeStore.get this k (SequelizeStore.destroy this k rows).2).1 = None).
Proof.
  rewrite !get_lookup.
  unfold SequelizeStore.destroy, CallModel.destroy. simpl.
  destruct (rows !! k) as [columns|] eqn:Hk; simpl; split; try done.
  - intros _. split; [done|]. by rewrite lookup_delete_eq.
  - intros _. f_equal. by apply delete_id.
Qed.

Lemma destroy_reports_and_removes_witness :
  SequelizeStore.destroy demoStore "CA9" demoRows = (false, demoRows) ∧
  (SequelizeStore.destroy demoStore "CA1" demoRows).1 = true ∧
  (SequelizeStore.get demoStore "CA1"
     (SequelizeStore.destroy demoStore "CA1" demoRows).2).1 = None.
Proof.
  split.
  - apply (proj1 (destroy_reports_and_removes demoStore "CA9" demoRows)).
    reflexivity.
  - apply (proj2 (destroy_reports_and_removes demoStore "CA1" demoRows)).
    discriminate.
Defined.

(** C10: [set] never reads its first argument: whatever key is passed, the
    record is upserted under the [callSid] inside the value; so when that
    [callSid] differs from the key, [set(k, v)] followed by [get(k)] does
    not return [v], and the round trip holds only for a matching key. *)
Theorem set_ignores_its_key (this : SequelizeStore.t) (k : string)
    (v : CallRecord) (rows : gmap string JSObject) :
  (∀ k', SequelizeStore.set this k' v rows = SequelizeStore.set this k v rows) ∧
  (SequelizeStore.set this k v rows).2 = <[callSid v := sessionData v]> rows ∧
  (callSid v ≠ k → ¬ setThenGetReturns this k v rows) ∧
  (setThenGetReturns this k v rows ↔ callSid v = k).
Proof.
  split; [done|]. split; [done|]. split.
  - intros Hne Hround. by apply Hne, (set_then_get_forces_callSid this k v rows).
  - split; [apply set_then_get_forces_callSid|].
    intros <-. apply set_then_get_same_callSid.
Qed.

Lemma set_ignores_its_key_witness :
  ¬ setThenGetReturns demoStore "CA1"
      {| callSid := "CA2"; sessionData := {[ "step" := "1" ]} |} demoRows.
Proof.
  apply (set_ignores_its_key demoStore "CA1"
           {| callSid := "CA2"; sessionData := {[ "step" := "1" ]} |} demoRows).
  discriminate.
Defined.

(** ** The route compiler *)

Section compiler.
Context `{StateTypes}.
Implicit Types (thisState : Candidate) (states : list Candidate) (app : App).

Lemma bind_normal {A B} (m : Setup A) (k : A → Setup B) app a app1 :
  m app = (Normal a, app1) → (m ≫= k) app = k a app1.
Proof. unfold mbind, Setup_bind. by intros ->. Qed.

Lemma bind_throw {A B} (m : Setup A) (k : A → Setup B) app e app1 :
  m app = (Throw e, app1) → (m ≫= k) app = (Throw e, app1).
Proof. unfold mbind, Setup_bind. by intros ->. Qed.

Lemma bind_normal_inv {A B} (m : Setup A) (k : A → Setup B) app b app2 :
  (m ≫= k) app = (Normal b, app2) →
  ∃ a app1, m app = (Normal a, app1) ∧ k a app1 = (Normal b, app2).
Proof.
  unfold mbind, Setup_bind. destruct (m app) as [[a|e] app1]; [eauto|done].
Qed.

(** A state that is not Usable stops the loop body at its first statement:
    it throws, and the application is as it was. *)
Lemma compileState_unusable thisState app :
  isUsableState thisState = false →
  compileState thisState app
  = (Throw ("Invalid state provided: " +:+ stateAsString thisState), app).
Proof. intros Hu. unfold compileState, when. by rewrite Hu. Qed.

(** When the loop body completes, the state was Usable, a Routable state had
    a [uri], a Normal state had a [processTransitionUri], and the stack grew
    by the state's declared bindings. *)
Lemma compileState_normal thisState app app' :
  compileState thisState app = (Normal (), app') →
  isUsableState thisState = true
  ∧ (isRoutableState thisState = true → is_Some (uriOf thisState))
  ∧ (isNormalState thisState = true → is_Some (processTransitionUriOf thisState))
  ∧ stack app' = stack app ++ declaredBindings thisState
  ∧ locals_furl app' = locals_furl app.
Proof.
  unfold compileState, declaredBindings, directBinding, transitionBinding, when.
  destruct (isUsableState thisState); [|done].
  destruct (isRoutableState thisState), (isNormalState thisState);
    destruct thisState as [| |name [uri|] [ptu|] f]; simpl;
    intros [= <-]; simpl; rewrite <- ?app_assoc, ?app_nil_r;
    repeat split; eauto; done.
Qed.

Lemma forEach_normal states app app' :
  forEach compileState states app = (Normal (), app') →
  Forall (λ thisState, ∃ app1 app2,
            compileState thisState app1 = (Normal (), app2)) states
  ∧ stack app' = stack app ++ flat_map declaredBindings states
  ∧ locals_furl app' = locals_furl app.
Proof.
  revert app. induction states as [|thisState rest IH]; intros app; simpl.
  - intros [= <-]. by rewrite app_nil_r.
  - intros Hrun. apply bind_normal_inv in Hrun as ([] & app1 & Hhead & Hrest).
    destruct (IH _ Hrest) as (Hall & Hstack & Hfurl).
    destruct (compileState_normal _ _ _ Hhead) as (_ & _ & _ & Hstack1 & Hfurl1).
    split; [constructor; eauto|].
    split; [by rewrite Hstack, Hstack1, <- app_assoc | congruence].
Qed.

Lemma forEach_app (callback : Candidate → Setup unit) states1 states2 app :
  forEach callback (states1 ++ states2) app
  = match forEach callback states1 app with
    | (Normal _, app1) => forEach callback states2 app1
    | (Throw e, app1) => (Throw e, app1)
    end.
Proof.
  revert app. induction states1 as [|thisState rest IH]; intros app; simpl.
  - done.
  - unfold mbind, Setup_bind.
    destruct (callback thisState app) as [[[]|e] app1]; [apply IH|done].
Qed.

(** The loop stops at the first state that is not Usable. *)
Lemma forEach_stops_at_unusable before thisState after app app1 :
  forEach compileState before app = (Normal (), app1) →
  isUsableState thisState = false →
  forEach compileState (before ++ thisState :: after) app
  = (Throw ("Invalid state provided: " +:+ stateAsString thisState), app1).
Proof.
  intros Hbefore Hu. rewrite forEach_app, Hbefore. simpl.
  by rewrite (bind_throw _ _ _ _ _ (compileState_unusable _ app1 Hu)).
Qed.

(** Whatever the loop body does, it only appends routes that carry its own
    state, and none unless the state is Usable. *)
Lemma compileState_registers thisState app :
  ∃ added,
    stack (compileState thisState app).2 = stack app ++ added
    ∧ Forall (λ layer,
                isUsableState thisState = true
                ∧ (l_handler layer = DirectHandler thisState
                   ∨ l_handler layer = ProcessTransitionHandler thisState))
             added.
Proof.
  unfold compileState, when. destruct app as [layers furl].
  destruct (isUsableState thisState), (isRoutableState thisState),
    (isNormalState thisState);
    destruct thisState as [| |name [uri|] [ptu|] f];
    unfold mbind, mret, Setup_bind, Setup_ret, app_post, throw; simpl;
    eexists;
    (split;
     [first [ symmetry; apply app_nil_r
            | rewrite <- app_assoc; reflexivity
            | reflexivity ]
     | simpl;
       repeat (apply List.Forall_cons; [split; [reflexivity|auto]|]);
       apply List.Forall_nil ]).
Qed.

Lemma forEach_registers states app :
  ∃ added,
    stack (forEach compileState states app).2 = stack app ++ added
    ∧ Forall (λ layer,
                ∃ thisState,
                  thisState ∈ states ∧ isUsableState thisState = true
                  ∧ (l_handler layer = DirectHandler thisState
                     ∨ l_handler layer = ProcessTransitionHandler thisState))
             added.
Proof.
  revert app. induction states as [|thisState rest IH]; intros app; simpl.
  - exists []. by rewrite app_nil_r.
  - destruct (compileState_registers thisState app) as (added1 & Hstack1 & Hadded1).
    assert (Hmine : Forall (λ layer,
                ∃ s, s ∈ thisState :: rest ∧ isUsableState s = true
                  ∧ (l_handler layer = DirectHandler s
                     ∨ l_handler layer = ProcessTransitionHandler s)) added1).
    { eapply Forall_impl; [exact Hadded1|]. intros layer [Hu Hh].
      exists thisState. split; [left|done]. }
    unfold mbind, Setup_bind.
    destruct (compileState thisState app) as [[[]|e] app1]; simpl in *.
    + destruct (IH app1) as (added2 & Hstack2 & Hadded2).
      exists (added1 ++ added2). split.
      * by rewrite Hstack2, Hstack1, app_assoc.
      * apply Forall_app. split; [done|].
        eapply Forall_impl; [exact Hadded2|].
        intros layer (s & Hin & Hrest). exists s. split; [by right|done].
    + by exists added1.
Qed.

Lemma compileRoutes_snd states app :
  (compileRoutes states app).2 = (forEach compileState states app).2.
Proof.
  unfold compileRoutes.
  by destruct (forEach compileState states app) as [[[]|e] app1].
Qed.

(** A declared state that the classifier does not accept as Usable makes
    compilation throw, and no route is registered for it. *)
Lemma rejected_state_aborts states app thisState :
  thisState ∈ states →
  isUsableState thisState = false →
  (∃ error, (compileRoutes states app).1 = Throw error)
  ∧ ∃ added,
      stack (compileRoutes states app).2 = stack app ++ added
      ∧ Forall (λ layer,
                  l_handler layer ≠ DirectHandler thisState
                  ∧ l_handler layer ≠ ProcessTransitionHandler thisState)
               added.
Proof.
  intros Hin Hu. split.
  - unfold compileRoutes.
    destruct (forEach compileState states app) as [[[]|e] app1] eqn:Hrun;
      [|by eexists].
    apply forEach_normal in Hrun as (Hall & _ & _).
    rewrite Forall_forall in Hall.
    destruct (Hall _ Hin) as (app2 & app3 & Hstate).
    apply compileState_normal in Hstate as (Hu' & _). congruence.
  - rewrite compileRoutes_snd.
    destruct (forEach_registers states app) as (added & Hstack & Hadded).
    exists added. split; [done|].
    eapply Forall_impl; [exact Hadded|].
    intros layer (s & _ & Hs & Hh).
    split; intros Heq; rewrite Heq in Hh;
      destruct Hh as [[= <-]|[= <-]]; congruence.
Qed.

Lemma compileRoutes_normal states app app' :
  compileRoutes states app = (Normal app', app') →
  forEach compileState states app = (Normal (), app').
Proof.
  unfold compileRoutes.
  destruct (forEach compileState states app) as [[[]|e] app1]; [|done].
  by intros [= ->].
Qed.

End compiler.

(** C1 fails as stated, twice.  A state that declares one path for its
    [uri] and its [processTransitionUri] gets its two bindings at the same
    path; and a Routable state declared after an entry that is not Usable
    gets no binding, because the loop has thrown before reaching it. *)
Lemma bindings_same_path_counterexample :
  ¬ bothAtDifferentPaths (H := SpecStateTypes) [stateSamePath] emptyApp
  ∧ ¬ everyRoutableIsBound (H := SpecStateTypes) [CNull; stateB] emptyApp.
Proof.
  split.
  - intros Hclaim.
    apply (Hclaim stateSamePath
             (postRoute "/s" (DirectHandler stateSamePath))
             (postRoute "/s" (ProcessTransitionHandler stateSamePath)));
      try reflexivity; apply list_elem_of_In; simpl; auto.
  - intros Hclaim.
    destruct (Hclaim stateB) as (layer & Hin & _); [|reflexivity|].
    + apply list_elem_of_In; simpl; auto.
    + by apply elem_of_nil in Hin.
Qed.

(** C1, amended: whenever compilation completes, the bindings it added are,
    in declaration order, those of the declared states and no others: one
    POST binding at its [uri] for a Routable state, one POST binding at its
    [processTransitionUri] for a Normal state, both for a state that is
    both; the two bindings of such a state are distinct (one direct, one
    transition, same state), at its [uri] and its [processTransitionUri],
    which need not differ. *)
Theorem compile_registers_declared_bindings `{StateTypes}
    (states : list Candidate) (app app' : App) :
  compileRoutes states app = (Normal app', app') →
  stack app' = stack app ++ flat_map declaredBindings states
  ∧ ∀ thisState, thisState ∈ states →
      length (declaredBindings thisState)
      = Nat.b2n (isRoutableState thisState) + Nat.b2n (isNormalState thisState)
      ∧ Forall (λ layer, l_method layer = POST) (declaredBindings thisState)
      ∧ (isRoutableState thisState = true →
         ∃ path, uriOf thisState = Some path
           ∧ directBinding thisState
             = [postRoute path (DirectHandler thisState)])
      ∧ (isNormalState thisState = true →
         ∃ path, processTransitionUriOf thisState = Some path
           ∧ transitionBinding thisState
             = [postRoute path (ProcessTransitionHandler thisState)])
      ∧ (isRoutableState thisState = true → isNormalState thisState = true →
         ∃ path1 path2,
           uriOf thisState = Some path1
           ∧ processTransitionUriOf thisState = Some path2
           ∧ declaredBindings thisState
             = [postRoute path1 (DirectHandler thisState);
                postRoute path2 (ProcessTransitionHandler thisState)]
           ∧ postRoute path1 (DirectHandler thisState)
             ≠ postRoute path2 (ProcessTransitionHandler thisState)).
Proof.
  intros Hrun. apply compileRoutes_normal, forEach_normal in Hrun
    as (Hall & Hstack & _).
  split; [done|]. intros thisState Hin.
  rewrite Forall_forall in Hall.
  destruct (Hall _ Hin) as (app1 & app2 & Hstate).
  apply compileState_normal in Hstate as (_ & Huri & Hptu & _ & _).
  unfold declaredBindings, directBinding, transitionBinding.
  destruct (isRoutableState thisState), (isNormalState thisState); simpl.
  - destruct Huri as [path1 ->]; [done|].
    destruct Hptu as [path2 ->]; [done|]. simpl.
    repeat split; eauto.
    intros _ _. exists path1, path2. repeat split. discriminate.
  - destruct Huri as [path1 ->]; [done|]. simpl.
    repeat split; eauto; done.
  - destruct Hptu as [path2 ->]; [done|]. simpl.
    repeat split; eauto; done.
  - repeat split; done.
Qed.

Lemma compile_registers_declared_bindings_witness :
  stack demoApp
  = stack emptyApp
    ++ flat_map (declaredBindings (H := SpecStateTypes))
         [stateA; stateB; stateFailing].
Proof.
  apply (compile_registers_declared_bindings (H := SpecStateTypes)
           [stateA; stateB; stateFailing] emptyApp demoApp).
  reflexivity.
Defined.

(** Under the classifier of the spec, a state without routes is not
    Usable. *)
Lemma lacksRoutes_not_usable (thisState : Candidate) :
  lacksRoutes thisState → specIsUsableState thisState = false.
Proof.
  intros [Huri Hnormal].
  unfold specIsUsableState, specIsRoutableState, specIsNormalState.
  rewrite Huri. rewrite andb_false_r. simpl.
  destruct Hnormal as [-> | ->]; by rewrite ?andb_false_r.
Qed.

(** C3: with the classifier as the spec describes it, every declared state
    that lacks both a [uri] and what a transition route needs makes
    compilation throw, synchronously in the compile phase, and none of the
    routes compilation has registered by then is a route of that state. *)
Theorem state_without_routes_aborts_compilation (states : list Candidate)
    (app : App) (thisState : Candidate) :
  thisState ∈ states →
  lacksRoutes thisState →
  (∃ error, (compileRoutes (H := SpecStateTypes) states app).1 = Throw error)
  ∧ ∃ added,
      stack (compileRoutes (H := SpecStateTypes) states app).2
      = stack app ++ added
      ∧ Forall (λ layer,
                  l_handler layer ≠ DirectHandler thisState
                  ∧ l_handler layer ≠ ProcessTransitionHandler thisState)
               added.
Proof.
  intros Hin Hlacks.
  apply (rejected_state_aborts (H := SpecStateTypes)); [done|].
  by apply lacksRoutes_not_usable.
Qed.

Lemma state_without_routes_aborts_compilation_witness :
  ∃ error,
    (compileRoutes (H := SpecStateTypes)
       [stateA; stateNameOnly; stateB] emptyApp).1 = Throw error.
Proof.
  apply (state_without_routes_aborts_compilation
           [stateA; stateNameOnly; stateB] emptyApp stateNameOnly).
  - apply list_elem_of_In. simpl. auto.
  - split; [reflexivity | by left].
Defined.

(** C5: when a declared state is not Usable, compilation throws "Invalid
    state provided: " followed by the state's [name] when it has one (a
    non-empty string), and by [String(state)] otherwise. *)
Theorem invalid_state_error_names_the_state `{StateTypes}
    (before after : list Candidate) (thisState : Candidate) (app app1 : App) :
  forEach compileState before app = (Normal (), app1) →
  isUsableState thisState = false →
  (compileRoutes (before ++ thisState :: after) app).1
  = Throw ("Invalid state provided: " +:+
           match nameOf thisState with
           | Some name => if decide (name = "") then String_ thisState else name
           | None => String_ thisState
           end).
Proof.
  intros Hbefore Hu. unfold compileRoutes.
  rewrite (forEach_stops_at_unusable _ _ after _ _ Hbefore Hu). simpl.
  do 2 f_equal. unfold stateAsString, truthyName.
  destruct thisState as [| |[name|] uri ptu f]; simpl; try done.
  destruct (String.eqb_spec name ""); by case_decide.
Qed.

Lemma invalid_state_error_names_the_state_witness :
  (compileRoutes (H := SpecStateTypes)
     ([stateA] ++ CNull :: [stateB]) emptyApp).1
  = Throw "Invalid state provided: null".
Proof.
  apply (invalid_state_error_names_the_state (H := SpecStateTypes)
           [stateA] [stateB] CNull emptyApp
           (compileRoutes (H := SpecStateTypes) [stateA] emptyApp).2);
    reflexivity.
Defined.

(** ** The router and the handlers *)

Section router.
Context `{RouteCreationHelpers} `{PathMatcher}.
Implicit Types (app : App) (req : Request) (layer : Layer).

Lemma Router_handle_skips app req before rest :
  Forall (λ layer, layerMatches layer req = false) before →
  Router_handle app (before ++ rest) req = Router_handle app rest req.
Proof.
  induction 1 as [|layer before Hno _ IH]; simpl; [done|].
  by rewrite Hno.
Qed.

Lemma Router_handle_first app req before layer after :
  Forall (λ layer, layerMatches layer req = false) before →
  layerMatches layer req = true →
  Router_handle app (before ++ layer :: after) req
  = (let effects := runHandler app (l_handler layer) req in
     if passesControl effects
     then effects ++ Router_handle app after req
     else effects).
Proof.
  intros Hbefore Hlayer. rewrite Router_handle_skips by done.
  simpl. by rewrite Hlayer.
Qed.

(** What [find] found splits the stack at the first matching route. *)
Lemma firstMatch_split (layers : list Layer) req layer :
  firstMatch layers req = Some layer →
  layerMatches layer req = true
  ∧ ∃ before after,
      layers = before ++ layer :: after
      ∧ Forall (λ layer, layerMatches layer req = false) before.
Proof.
  unfold firstMatch.
  induction layers as [|l rest IH]; simpl; [done|].
  destruct (layerMatches l req) eqn:Hl.
  - intros [= ->]. split; [done|]. by exists [], rest.
  - intros Hfind. destruct (IH Hfind) as (Hm & before & after & -> & Hno).
    split; [done|]. exists (l :: before), after. split; [done|].
    by constructor.
Qed.

(** The effects of the transition handler when the transition resolves. *)
Lemma processTransitionHandler_resolved app req name uri ptu transitionOut
    updatedSession resultState :
  transitionOut (getSessionData req) (body req)
  = Resolved (updatedSession, resultState) →
  processTransitionHandler app (CObject name uri ptu (Some transitionOut)) req
  = TransitionOutCalled (CObject name uri ptu (Some transitionOut))
      (getSessionData req) (body req)
    :: RenderStateCalled resultState req updatedSession (locals_furl app) None
    :: match renderState resultState req updatedSession (locals_furl app) None with
       | Resolved twiml => [ResSend twiml]
       | Rejected err => [Next err]
       | Pending => []
       end.
Proof. unfold processTransitionHandler. by intros ->. Qed.

(** The effects of the transition handler when the transition rejects. *)
Lemma processTransitionHandler_rejected app req name uri ptu transitionOut err :
  transitionOut (getSessionData req) (body req) = Rejected err →
  processTransitionHandler app (CObject name uri ptu (Some transitionOut)) req
  = [TransitionOutCalled (CObject name uri ptu (Some transitionOut))
       (getSessionData req) (body req);
     UnhandledRejection err].
Proof. unfold processTransitionHandler. by intros ->. Qed.




End router.

(** C9 fails as stated: with two Routable states declared at "/x", a POST
    to "/x" is answered by the state declared first, not by the one
    registered last. *)
Lemma last_registration_counterexample :
  ¬ lastRegistrationWins (H := demoHelpers) (H0 := exactPaths)
      (compileRoutes (H := SpecStateTypes) [stateFirst; stateSecond] emptyApp).2
      (post "/x" ∅).
Proof.
  intros Hclaim.
  specialize (Hclaim (postRoute "/x" (DirectHandler stateSecond)) eq_refl).
  vm_compute in Hclaim. discriminate Hclaim.
Qed.

(** C9, amended: bindings are registered in declaration order of the state
    sequence, and when several registered routes match a request, the one
    registered first handles it; a route registered later at the same path
    runs only if every matching route before it passed control on by calling
    [next] without an error. *)
Theorem first_registration_wins `{StateTypes} `{RouteCreationHelpers}
    `{PathMatcher} (states : list Candidate) (app app' : App) (req : Request)
    (before after : list Layer) (layer : Layer) :
  compileRoutes states app = (Normal app', app') →
  stack app' = before ++ layer :: after →
  Forall (λ earlier, layerMatches earlier req = false) before →
  layerMatches layer req = true →
  stack app' = stack app ++ flat_map declaredBindings states
  ∧ firstMatch (stack app') req = Some layer
  ∧ Router_handle app' (stack app') req
    = (let effects := runHandler app' (l_handler layer) req in
       if passesControl effects
       then effects ++ Router_handle app' after req
       else effects).
Proof.
  intros Hrun Hsplit Hbefore Hlayer.
  apply compileRoutes_normal, forEach_normal in Hrun as (_ & Hstack & _).
  split; [done|]. rewrite Hsplit. split.
  - unfold firstMatch. clear Hsplit.
    induction Hbefore as [|earlier before Hno _ IH]; simpl.
    + by rewrite Hlayer.
    + by rewrite Hno.
  - by apply Router_handle_first.
Qed.

Lemma first_registration_wins_witness :
  firstMatch (H := exactPaths)
    (stack (compileRoutes (H := SpecStateTypes)
              [stateFirst; stateSecond] emptyApp).2)
    (post "/x" ∅)
  = Some (postRoute "/x" (DirectHandler stateFirst)).
Proof.
  refine (proj1 (proj2
    (first_registration_wins (H := SpecStateTypes) (H0 := demoHelpers)
       (H1 := exactPaths) [stateFirst; stateSecond] emptyApp
       (compileRoutes (H := SpecStateTypes)
          [stateFirst; stateSecond] emptyApp).2
       (post "/x" ∅) []
       [postRoute "/x" (DirectHandler stateSecond)]
       (postRoute "/x" (DirectHandler stateFirst)) _ _ _ _)));
    solve [reflexivity | constructor].
Defined.



(** The direct handler hands a failed rendering to [next]; the transition
    handler does the same for the rendering of the result state. *)
Lemma render_rejection_reaches_next `{RouteCreationHelpers} (app : App)
    (thisState : Candidate) (req : Request) (err : Reason) :
  renderState thisState req (getSessionData req) (locals_furl app)
    (Some (body req)) = Rejected err →
  last (directHandler app thisState req) = Some (Next err).
Proof. unfold directHandler. by intros ->. Qed.

(** C4, evaluated on the code: the transition of the failing state rejects,
    and the request ends with the rejection unhandled: [next] is not called
    and nothing is sent. *)
Theorem transition_rejection_is_dropped :
  serve (H := demoHelpers) (H0 := exactPaths)
    demoApp demoStore failingRequest demoRows
  = ([TransitionOutCalled stateFailing {[ "step" := "0" ]}
        (<["CallSid" := "CA1"]> {[ "choice" := "9" ]});
      UnhandledRejection (RError "no such choice")],
     demoRows).
Proof. vm_compute. reflexivity. Qed.

(** C6: the direct handler calls [renderState] once, with the request body
    as raw input; the transition handler calls it at most once, and then
    with no raw input. *)
Theorem raw_input_only_on_direct_route `{RouteCreationHelpers} (app : App)
    (thisState : Candidate) (req : Request) :
  renderInputs (runHandler app (DirectHandler thisState) req)
  = [Some (body req)]
  ∧ (renderInputs (runHandler app (ProcessTransitionHandler thisState) req)
     = [None]
     ∨ renderInputs (runHandler app (ProcessTransitionHandler thisState) req)
       = []).
Proof.
  simpl. unfold directHandler, processTransitionHandler. split.
  - simpl. by destruct (renderState _ _ _ _ _).
  - destruct thisState as [| |name uri ptu [transitionOut|]]; simpl; auto.
    destruct (transitionOut _ _) as [[updatedSession resultState]|err|];
      simpl; auto.
    left. by destruct (renderState _ _ _ _ _).
Qed.

(** The flow of the spec, run: the transition route of A renders B with the
    updated session and no raw input, and the direct route of B renders B
    with the request body. *)
Example next_request_renders_B :
  (serve (H := demoHelpers) (H0 := exactPaths)
     demoApp demoStore nextRequest demoRows).1
  = [TransitionOutCalled stateA {[ "step" := "0" ]} (body nextRequest);
     RenderStateCalled stateB
       {| req_method := POST; req_path := "/a/next"; body := body nextRequest;
          callSession := Some {| pc_callSid := "CA1";
                                 pc_sessionData := {[ "step" := "0" ]};
                                 pc_userCall := None |} |}
       (<["step" := "1"]> {[ "step" := "0" ]}) (locals_furl emptyApp) None;
     ResSend "B:1"].
Proof. vm_compute. reflexivity. Qed.

Example stateAsString_uses_the_name :
  stateAsString stateA = "A" ∧ stateAsString stateUnnamed = "[object Object]"
  ∧ stateAsString CUndefined = "undefined".
Proof. by repeat split. Qed.

(** * Further properties of the session store *)

(** X3: [set] leaves every other call alone: for a key that is not the
    [callSid] of the value, [get] returns the same record before and after,
    up to the store-added metadata. *)
Theorem set_leaves_other_calls (this : SequelizeStore.t) (k k' : string)
    (v : CallRecord) (rows : gmap string JSObject) :
  k' ≠ callSid v →
  withoutMetadata <$>
    (SequelizeStore.get this k' (SequelizeStore.set this k v rows).2).1
  = withoutMetadata <$> (SequelizeStore.get this k' rows).1.
Proof.
  intros Hne. rewrite !get_lookup, set_rows, lookup_insert_ne by done.
  by destruct (rows !! k').
Qed.

Lemma set_leaves_other_calls_witness :
  withoutMetadata <$>
    (SequelizeStore.get demoStore "CA1"
       (SequelizeStore.set demoStore "CA1"
          {| callSid := "CA2"; sessionData := ∅ |} demoRows).2).1
  = withoutMetadata <$> (SequelizeStore.get demoStore "CA1" demoRows).1.
Proof. apply set_leaves_other_calls. discriminate. Defined.

(** X4: [destroy] leaves every other call alone: for a key other than the
    destroyed one, [get] returns the same record before and after, up to the
    store-added metadata. *)
Theorem destroy_leaves_other_calls (this : SequelizeStore.t) (k k' : string)
    (rows : gmap string JSObject) :
  k' ≠ k →
  withoutMetadata <$>
    (SequelizeStore.get this k' (SequelizeStore.destroy this k rows).2).1
  = withoutMetadata <$> (SequelizeStore.get this k' rows).1.
Proof.
  intros Hne. rewrite !get_lookup.
  unfold SequelizeStore.destroy, CallModel.destroy. simpl.
  rewrite lookup_delete_ne by done. by destruct (rows !! k').
Qed.

Lemma destroy_leaves_other_calls_witness :
  withoutMetadata <$>
    (SequelizeStore.get demoStore "CA1"
       (SequelizeStore.destroy demoStore "CA2" demoRows).2).1
  = withoutMetadata <$> (SequelizeStore.get demoStore "CA1" demoRows).1.
Proof. apply destroy_leaves_other_calls. discriminate. Defined.

(** X5: a second [destroy] of the same key resolves to false and changes
    nothing more. *)
Theorem destroy_twice (this : SequelizeStore.t) (k : string)
    (rows : gmap string JSObject) :
  SequelizeStore.destroy this k (SequelizeStore.destroy this k rows).2
  = (false, (SequelizeStore.destroy this k rows).2).
Proof.
  unfold SequelizeStore.destroy, CallModel.destroy. simpl.
  rewrite lookup_delete_eq. simpl. f_equal.
  apply delete_id, lookup_delete_eq.
Qed.

(** X6: a [set] undone by a [destroy]: destroying the [callSid] of a value
    just set resolves to true and leaves the table as destroying that call
    in the first place would; if the call was not there before the [set],
    the table is back to what it was. *)
Theorem set_then_destroy (this : SequelizeStore.t) (k : string)
    (v : CallRecord) (rows : gmap string JSObject) :
  SequelizeStore.destroy this (callSid v) (SequelizeStore.set this k v rows).2
  = (true, (SequelizeStore.destroy this (callSid v) rows).2)
  ∧ ((SequelizeStore.get this (callSid v) rows).1 = None →
     (SequelizeStore.destroy this (callSid v)
        (SequelizeStore.set this k v rows).2).2 = rows).
Proof.
  rewrite get_lookup, set_rows.
  unfold SequelizeStore.destroy, CallModel.destroy. simpl.
  rewrite lookup_insert_eq, delete_insert_eq. split; [done|].
  intros Hnone. apply delete_id.
  by destruct (rows !! callSid v).
Qed.

Lemma set_then_destroy_witness :
  (SequelizeStore.destroy demoStore "CA2"
     (SequelizeStore.set demoStore "CA1"
        {| callSid := "CA2"; sessionData := ∅ |} demoRows).2).2 = demoRows.
Proof.
  apply (set_then_destroy demoStore "CA1"
           {| callSid := "CA2"; sessionData := ∅ |} demoRows).
  reflexivity.
Defined.

(** X7: setting the same value again, under whatever key, leaves the table
    as the first [set] left it. *)
Theorem set_twice_same_table (this : SequelizeStore.t) (k k' : string)
    (v : CallRecord) (rows : gmap string JSObject) :
  (SequelizeStore.set this k' v (SequelizeStore.set this k v rows).2).2
  = (SequelizeStore.set this k v rows).2.
Proof. rewrite !set_rows. apply insert_insert_eq. Qed.

(** * Further properties of the route compiler *)

Section compiler_more.
Context `{StateTypes}.
Implicit Types (thisState : Candidate) (states : list Candidate) (app : App).

(** Whether the loop body throws and what it registers depend on the state
    alone; it only appends POST routes that carry this state. *)
Lemma compileState_adds thisState :
  ∃ (outcome : Completion unit) (added : list Layer),
    (∀ app, compileState thisState app
            = (outcome, {| stack := stack app ++ added;
                           locals_furl := locals_furl app |}))
    ∧ Forall (λ layer, l_method layer = POST) added.
Proof.
  unfold compileState, when.
  destruct (isUsableState thisState), (isRoutableState thisState),
    (isNormalState thisState);
    destruct thisState as [| |name [uri|] [ptu|] f]; simpl;
    eexists _, _;
    (split;
     [intros [layers furl];
      unfold mbind, mret, Setup_bind, Setup_ret, app_post, throw; simpl;
      first [ reflexivity
            | rewrite <- (app_nil_r layers) at 1; reflexivity
            | rewrite <- app_assoc; reflexivity ]
     | repeat constructor ]).
Qed.

Lemma forEach_adds states :
  ∃ (outcome : Completion unit) (added : list Layer),
    (∀ app, forEach compileState states app
            = (outcome, {| stack := stack app ++ added;
                           locals_furl := locals_furl app |}))
    ∧ Forall (λ layer, l_method layer = POST) added.
Proof.
  induction states as [|thisState rest IH]; simpl.
  - exists (Normal ()), []. split; [|constructor].
    intros [layers furl]. cbn. by rewrite app_nil_r.
  - destruct (compileState_adds thisState) as ([[]|e] & added1 & Hhead & Hpost1).
    + destruct IH as (outcome & added2 & Hrest & Hpost2).
      exists outcome, (added1 ++ added2). split; [|by apply Forall_app].
      intros app. rewrite (bind_normal _ _ _ _ _ (Hhead app)), Hrest.
      simpl. by rewrite app_assoc.
    + exists (Throw e), added1. split; [|done].
      intros app. by rewrite (bind_throw _ _ _ _ _ (Hhead app)).
Qed.

End compiler_more.

(** X9: compilation completes only if every declared state is Usable,
    every Routable one has a [uri] and every Normal one has a
    [processTransitionUri]. *)
Theorem compile_completes_only_if `{StateTypes} (states : list Candidate)
    (app app' : App) :
  compileRoutes states app = (Normal app', app') →
  Forall compilable states.
Proof.
  intros Hrun.
  apply compileRoutes_normal, forEach_normal in Hrun as (Hall & _ & _).
  eapply Forall_impl; [exact Hall|]. intros thisState (app1 & app2 & Hstate).
  apply compileState_normal in Hstate as (Hu & Huri & Hptu & _ & _).
  by repeat split.
Qed.

Lemma compile_completes_only_if_witness :
  Forall (compilable (H := SpecStateTypes)) [stateA; stateB; stateFailing].
Proof.
  apply (compile_completes_only_if (H := SpecStateTypes)
           [stateA; stateB; stateFailing] emptyApp demoApp).
  reflexivity.
Defined.

(** X10: compiling two sequences one after the other is compiling their
    concatenation: when the first completes, the concatenation gives what
    the second gives on the application the first returned; when the first
    throws, the concatenation throws the same error with the same routes. *)
Theorem compile_app `{StateTypes} (states1 states2 : list Candidate)
    (app app1 : App) :
  (compileRoutes states1 app = (Normal app1, app1) →
   compileRoutes (states1 ++ states2) app = compileRoutes states2 app1)
  ∧ (∀ error, compileRoutes states1 app = (Throw error, app1) →
     compileRoutes (states1 ++ states2) app = (Throw error, app1)).
Proof.
  unfold compileRoutes. rewrite forEach_app.
  destruct (forEach compileState states1 app) as [[[]|e] app2]; split;
    intros; by simplify_eq.
Qed.

Lemma compile_app_witness :
  compileRoutes (H := SpecStateTypes) ([stateA] ++ [stateB]) emptyApp
  = compileRoutes (H := SpecStateTypes) [stateB]
      (compileRoutes (H := SpecStateTypes) [stateA] emptyApp).2
  ∧ compileRoutes (H := SpecStateTypes) ([stateA; CNull] ++ [stateB]) emptyApp
    = (Throw "Invalid state provided: null",
       (compileRoutes (H := SpecStateTypes) [stateA] emptyApp).2).
Proof.
  split.
  - apply (proj1 (compile_app (H := SpecStateTypes) [stateA] [stateB] emptyApp
                    (compileRoutes (H := SpecStateTypes) [stateA] emptyApp).2)).
    reflexivity.
  - apply (proj2 (compile_app (H := SpecStateTypes) [stateA; CNull] [stateB]
                    emptyApp
                    (compileRoutes (H := SpecStateTypes) [stateA] emptyApp).2)).
    reflexivity.
Defined.

(** X11: what compilation registers and whether it throws depend on the
    declared states only, never on the routes the application already has:
    the existing routes and [app.locals.furl] are kept as they are, and only
    POST routes are appended behind them, also when compilation throws. *)
Theorem compile_ignores_existing_routes `{StateTypes}
    (states : list Candidate) :
  ∃ (error : option string) (added : list Layer),
    Forall (λ layer, l_method layer = POST) added
    ∧ ∀ app,
        thrown (compileRoutes states app).1 = error
        ∧ stack (compileRoutes states app).2 = stack app ++ added
        ∧ locals_furl (compileRoutes states app).2 = locals_furl app.
Proof.
  destruct (forEach_adds states) as (outcome & added & Hrun & Hpost).
  exists (thrown outcome), added. split; [done|]. intros app.
  unfold compileRoutes. rewrite Hrun. by destruct outcome as [[]|e].
Qed.

(** * Further properties of routing and of the handlers *)

Section router_more.
Context `{RouteCreationHelpers} `{PathMatcher}.
Implicit Types (app : App) (req : Request) (layer : Layer).

(** A handler reads nothing of the application but [app.locals.furl]. *)
Lemma runHandler_furl app1 app2 handler req :
  locals_furl app1 = locals_furl app2 →
  runHandler app1 handler req = runHandler app2 handler req.
Proof.
  intros Hfurl. destruct handler as [thisState|thisState|run]; simpl; [| |done].
  - unfold directHandler. by rewrite Hfurl.
  - unfold processTransitionHandler. by rewrite Hfurl.
Qed.

Lemma Router_handle_furl app1 app2 layers req :
  locals_furl app1 = locals_furl app2 →
  Router_handle app1 layers req = Router_handle app2 layers req.
Proof.
  intros Hfurl. induction layers as [|layer rest IH]; simpl; [done|].
  by rewrite IH, (runHandler_furl app1 app2).
Qed.

(** Routes that do not match, behind the others, change nothing. *)
Lemma Router_handle_trailing app layers extra req :
  Forall (λ layer, layerMatches layer req = false) extra →
  Router_handle app (layers ++ extra) req = Router_handle app layers req.
Proof.
  intros Hextra. induction layers as [|layer rest IH]; simpl.
  - by rewrite <- (app_nil_r extra), Router_handle_skips.
  - by rewrite IH.
Qed.

Lemma firstMatch_exists (layers : list Layer) req layer :
  layer ∈ layers → layerMatches layer req = true →
  is_Some (firstMatch layers req).
Proof.
  unfold firstMatch. intros Hin Hmatch.
  induction Hin as [layer rest|layer other rest _ IH]; simpl.
  - by rewrite Hmatch.
  - destruct (layerMatches other req); eauto.
Qed.

End router_more.

(** X12: a GET request is answered as if no state had been compiled: the
    routes of the states are POST routes and never take it. *)
Theorem get_requests_bypass_state_routes `{StateTypes} `{RouteCreationHelpers}
    `{PathMatcher} (states : list Candidate) (app : App) (req : Request) :
  req_method req = GET →
  Router_handle (compileRoutes states app).2
    (stack (compileRoutes states app).2) req
  = Router_handle app (stack app) req.
Proof.
  intros Hget.
  destruct (forEach_adds states) as (outcome & added & Hrun & Hpost).
  assert (Happ : (compileRoutes states app).2
                 = {| stack := stack app ++ added;
                      locals_furl := locals_furl app |}).
  { unfold compileRoutes. rewrite Hrun. by destruct outcome as [[]|e]. }
  rewrite Happ. simpl.
  rewrite Router_handle_trailing.
  - by apply Router_handle_furl.
  - eapply Forall_impl; [exact Hpost|]. intros layer Hmethod.
    unfold layerMatches. by rewrite Hmethod, Hget.
Qed.

Lemma get_requests_bypass_state_routes_witness :
  Router_handle (H := demoHelpers) (H0 := exactPaths)
    (compileRoutes (H := SpecStateTypes) [stateA; stateB] holdMusicApp).2
    (stack (compileRoutes (H := SpecStateTypes) [stateA; stateB] holdMusicApp).2)
    (getRequest "/a")
  = Router_handle (H := demoHelpers) (H0 := exactPaths)
      holdMusicApp (stack holdMusicApp) (getRequest "/a").
Proof.
  apply (get_requests_bypass_state_routes (H := SpecStateTypes)
           (H0 := demoHelpers) (H1 := exactPaths)).
  reflexivity.
Defined.

(** X13: once compilation has completed, a POST whose path is covered by the
    [uri] of a declared Routable state, or by the [processTransitionUri] of
    a declared Normal state, finds a route. *)
Theorem declared_paths_are_routed `{StateTypes} `{PathMatcher}
    (states : list Candidate) (app app' : App) (thisState : Candidate)
    (path : string) (req : Request) :
  compileRoutes states app = (Normal app', app') →
  thisState ∈ states →
  req_method req = POST →
  pathMatches path (req_path req) = true →
  (isRoutableState thisState = true ∧ uriOf thisState = Some path)
  ∨ (isNormalState thisState = true
     ∧ processTransitionUriOf thisState = Some path) →
  is_Some (firstMatch (stack app') req).
Proof.
  intros Hrun Hin Hpost Hpath Hdeclared.
  apply compileRoutes_normal, forEach_normal in Hrun as (_ & Hstack & _).
  rewrite Hstack.
  assert (Hbound : ∃ handler,
             postRoute path handler ∈ declaredBindings thisState).
  { unfold declaredBindings, directBinding, transitionBinding.
    destruct Hdeclared as [[-> ->]|[-> ->]].
    - exists (DirectHandler thisState). apply elem_of_app. left.
      apply list_elem_of_singleton. done.
    - exists (ProcessTransitionHandler thisState). apply elem_of_app. right.
      apply list_elem_of_singleton. done. }
  destruct Hbound as [handler Hbound].
  apply (firstMatch_exists _ _ (postRoute path handler)).
  - apply elem_of_app. right. apply list_elem_of_In, in_flat_map.
    exists thisState. split; by apply list_elem_of_In.
  - unfold layerMatches. simpl. by rewrite Hpost, Hpath.
Qed.

Lemma declared_paths_are_routed_witness :
  is_Some (firstMatch (H := exactPaths) (stack demoApp) nextRequest).
Proof.
  apply (declared_paths_are_routed (H := SpecStateTypes) (H0 := exactPaths)
           [stateA; stateB; stateFailing] emptyApp demoApp stateA "/a/next");
    [reflexivity| |reflexivity|reflexivity|right; split; reflexivity].
  apply list_elem_of_In. simpl. auto.
Defined.

(** X14: when no route registered before compilation matches a request and
    every declared binding that matches it carries the same handler, the
    request is answered by that handler; other routes run only if it passes
    control on. *)
Theorem declared_route_answers `{StateTypes} `{RouteCreationHelpers}
    `{PathMatcher} (states : list Candidate) (app app' : App) (req : Request)
    (handler : Handler) :
  compileRoutes states app = (Normal app', app') →
  Forall (λ layer, layerMatches layer req = false) (stack app) →
  (∃ layer, layer ∈ flat_map declaredBindings states
            ∧ layerMatches layer req = true) →
  (∀ layer, layer ∈ flat_map declaredBindings states →
            layerMatches layer req = true → l_handler layer = handler) →
  ∃ rest,
    Router_handle app' (stack app') req = runHandler app' handler req ++ rest
    ∧ (passesControl (runHandler app' handler req) = false → rest = []).
Proof.
  intros Hrun Hold [declared [Hin Hmatch]] Hsame.
  apply compileRoutes_normal, forEach_normal in Hrun as (_ & Hstack & _).
  destruct (firstMatch_exists (stack app') req declared) as [layer Hfirst];
    [rewrite Hstack; apply elem_of_app; by right|done|].
  pose proof (find_some _ _ Hfirst) as [Hlayer Hlm].
  apply firstMatch_split in Hfirst as (_ & before & after & Hsplit & Hno).
  assert (Hhandler : l_handler layer = handler).
  { rewrite Hstack in Hlayer. apply in_app_or in Hlayer as [Hin_old|Hin_new].
    - rewrite Forall_forall in Hold.
      apply list_elem_of_In, Hold in Hin_old. congruence.
    - apply Hsame; [by apply list_elem_of_In|done]. }
  rewrite Hsplit, Router_handle_first by done. cbv zeta. rewrite Hhandler.
  destruct (passesControl (runHandler app' handler req)).
  - eexists. split; [reflexivity|done].
  - exists []. by rewrite app_nil_r.
Qed.

Lemma declared_route_answers_witness :
  ∃ rest,
    Router_handle (H := demoHelpers) (H0 := exactPaths)
      demoApp (stack demoApp) (post "/b" ∅)
    = runHandler (H := demoHelpers) demoApp (DirectHandler stateB) (post "/b" ∅)
      ++ rest
    ∧ (passesControl
         (runHandler (H := demoHelpers) demoApp (DirectHandler stateB)
            (post "/b" ∅)) = false → rest = []).
Proof.
  apply (declared_route_answers (H := SpecStateTypes) (H0 := demoHelpers)
           (H1 := exactPaths) [stateA; stateB; stateFailing] emptyApp demoApp).
  - reflexivity.
  - constructor.
  - exists (postRoute "/b" (DirectHandler stateB)). split; [|reflexivity].
    apply list_elem_of_In. simpl. auto.
  - intros layer Hin Hmatch. apply list_elem_of_In in Hin. simpl in Hin.
    destruct Hin as [<-|[<-|[<-|[<-|[]]]]]; solve [reflexivity | discriminate Hmatch].
Defined.

(** X15: a state's handler answers at most once.  The direct handler never
    calls [transitionOut], calls [renderState] once, and calls at most one
    of [res.send] and [next], once.  The transition handler calls
    [transitionOut] and [renderState] at most once each and at most one of
    [res.send] and [next], once; when it sends, [transitionOut] ran once and
    the one rendering had no raw input. *)
Theorem state_handlers_answer_at_most_once `{RouteCreationHelpers} (app : App)
    (thisState : Candidate) (req : Request) :
  (transitionOutCalls (runHandler app (DirectHandler thisState) req) = 0
   ∧ length (renderInputs (runHandler app (DirectHandler thisState) req)) = 1
   ∧ (length (sentDocuments (runHandler app (DirectHandler thisState) req))
      + length (nextCalls (runHandler app (DirectHandler thisState) req))
      ≤ 1)%nat)
  ∧ ((transitionOutCalls
        (runHandler app (ProcessTransitionHandler thisState) req) ≤ 1)%nat
     ∧ (length (renderInputs
                  (runHandler app (ProcessTransitionHandler thisState) req))
        ≤ 1)%nat
     ∧ (length (sentDocuments
                  (runHandler app (ProcessTransitionHandler thisState) req))
        + length (nextCalls
                    (runHandler app (ProcessTransitionHandler thisState) req))
        ≤ 1)%nat
     ∧ (sentDocuments
          (runHandler app (ProcessTransitionHandler thisState) req) = []
        ∨ (transitionOutCalls
             (runHandler app (ProcessTransitionHandler thisState) req) = 1
           ∧ renderInputs
               (runHandler app (ProcessTransitionHandler thisState) req)
             = [None]
           ∧ nextCalls
               (runHandler app (ProcessTransitionHandler thisState) req)
             = []))).
Proof.
  simpl. unfold directHandler, processTransitionHandler. split.
  - simpl. destruct (renderState _ _ _ _ _); simpl; auto with lia.
  - destruct thisState as [| |name uri ptu [transitionOut|]]; simpl.
    1, 2, 4: repeat split; auto with lia.
    destruct (transitionOut _ _) as [[updatedSession resultState]|err|]; simpl.
    2, 3: repeat split; auto with lia.
    destruct (renderState _ _ _ _ _); simpl; repeat split; auto with lia.
Qed.

(** X16: when the transition resolves but the rendering of the result state
    rejects, the handler has called [transitionOut] once, rendered once
    without raw input, and hands the rejection to [next]; nothing is
    sent. *)
Theorem transition_render_failure_reaches_next `{RouteCreationHelpers}
    (app : App) (req : Request) (name uri processTransitionUri : option string)
    (transitionOut : JSObject → JSObject → Promise (JSObject * Candidate))
    (updatedSession : JSObject) (resultState : Candidate) (err : Reason) :
  let effects :=
    runHandler app
      (ProcessTransitionHandler
         (CObject name uri processTransitionUri (Some transitionOut))) req in
  transitionOut (getSessionData req) (body req)
  = Resolved (updatedSession, resultState) →
  renderState resultState req updatedSession (locals_furl app) None
  = Rejected err →
  last effects = Some (Next err)
  ∧ nextCalls effects = [err]
  ∧ sentDocuments effects = []
  ∧ transitionOutCalls effects = 1
  ∧ renderInputs effects = [None].
Proof.
  intros effects Hout Hrender. subst effects. unfold runHandler.
  rewrite (processTransitionHandler_resolved _ _ _ _ _ _ _ _ Hout), Hrender.
  by repeat split.
Qed.

Lemma transition_render_failure_reaches_next_witness :
  nextCalls
    (runHandler (H := failingRenderHelpers) demoApp
       (ProcessTransitionHandler stateA) nextRequest)
  = [RError "cannot render"].
Proof.
  apply (transition_render_failure_reaches_next (H := failingRenderHelpers)
           demoApp nextRequest (Some "A") (Some "/a") (Some "/a/next")
           transitionOutA (<["step" := "1"]> ∅) stateB
           (RError "cannot render"));
    reflexivity.
Defined.

(** X17: when the rendering on a direct route rejects, the rejection is
    passed to [next] as it is.  With an error, routing stops there; a
    rejection without a reason reads to Express as no error, and the request
    goes on to the routes registered after this one. *)
Theorem direct_render_rejection_routing `{RouteCreationHelpers} `{PathMatcher}
    (app : App) (req : Request) (before after : list Layer)
    (thisState : Candidate) (path : string) (err : Reason) :
  Forall (λ earlier, layerMatches earlier req = false) before →
  layerMatches (postRoute path (DirectHandler thisState)) req = true →
  renderState thisState req (getSessionData req) (locals_furl app)
    (Some (body req)) = Rejected err →
  Router_handle app
    (before ++ postRoute path (DirectHandler thisState) :: after) req
  = RenderStateCalled thisState req (getSessionData req) (locals_furl app)
      (Some (body req))
    :: Next err
    :: match err with
       | RUndefined => Router_handle app after req
       | RError _ => []
       end.
Proof.
  intros Hbefore Hmatch Hrender.
  rewrite Router_handle_first by done. simpl.
  unfold directHandler. rewrite Hrender. simpl. by destruct err.
Qed.

Lemma direct_render_rejection_routing_witness :
  Router_handle (H := failingRenderHelpers) (H0 := exactPaths) demoApp
    ([postRoute "/a" (DirectHandler stateA);
      postRoute "/a/next" (ProcessTransitionHandler stateA)]
     ++ postRoute "/b" (DirectHandler stateB)
     :: [postRoute "/f/next" (ProcessTransitionHandler stateFailing)])
    (post "/b" ∅)
  = [RenderStateCalled stateB (post "/b" ∅) ∅ (locals_furl demoApp) (Some ∅);
     Next (RError "cannot render")].
Proof.
  apply (direct_render_rejection_routing (H := failingRenderHelpers)
           (H0 := exactPaths) demoApp (post "/b" ∅)
           [postRoute "/a" (DirectHandler stateA);
            postRoute "/a/next" (ProcessTransitionHandler stateA)]
           [postRoute "/f/next" (ProcessTransitionHandler stateFailing)]
           stateB "/b" (RError "cannot render"));
    solve [reflexivity | repeat constructor].
Defined.

(** X19: when the transition rejects, the handler has called [transitionOut]
    once and stops: no state is rendered and no document is sent. *)
Theorem failed_transition_renders_nothing `{RouteCreationHelpers} (app : App)
    (req : Request) (name uri processTransitionUri : option string)
    (transitionOut : JSObject → JSObject → Promise (JSObject * Candidate))
    (err : Reason) :
  let effects :=
    runHandler app
      (ProcessTransitionHandler
         (CObject name uri processTransitionUri (Some transitionOut))) req in
  transitionOut (getSessionData req) (body req) = Rejected err →
  transitionOutCalls effects = 1
  ∧ renderInputs effects = []
  ∧ sentDocuments effects = [].
Proof.
  intros effects Hout. subst effects. unfold runHandler.
  by rewrite (processTransitionHandler_rejected _ _ _ _ _ _ _ Hout).
Qed.

Lemma failed_transition_renders_nothing_witness :
  renderInputs
    (runHandler (H := demoHelpers) demoApp
       (ProcessTransitionHandler stateFailing) failingRequest) = [].
Proof.
  apply (failed_transition_renders_nothing (H := demoHelpers) demoApp
           failingRequest (Some "F") None (Some "/f/next")
           (λ session input, Rejected (RError "no such choice"))
           (RError "no such choice")).
  reflexivity.
Defined.
